(** * CSV table widget: model of [src/csvwidget/table.ts]

    A shallow embedding of the [CSVModel] / [CSVTable] pair.

    - JavaScript strings are [string]; a value of static type [string] that
      can be [undefined] at run time (the [_content] field, an optional
      member of [IOptions], a cell of a short row) is an [option string],
      [None] standing for [undefined].
    - JavaScript numbers that hold array lengths are [Z].
    - A d3 row object ([DSVRowString]) is a [gmap string (option string)].
    - A method is a computation in the monad [M]: it reads and writes the
      receiver, appends the signals it emits to a trace, and completes
      normally or by throwing.
    - The d3-dsv library is a dependency, not part of the widget: the
      expression [dsv.dsvFormat(delimiter).parse(content)] is a parameter of
      the model ([Section Model]), and the general results hold for every
      parser. Module [D3Dsv] gives the d3-dsv 1.0 algorithm as an instance,
      used for the concrete examples. *)

From Stdlib Require Import ZArith Ascii.
From stdpp Require Import gmap strings list pretty.

Local Open Scope Z_scope.

(** ** Constants *)

(** The hard limit on the number of rows to display. *)
Definition DISPLAY_LIMIT : Z := 1000.

(** ** JavaScript values and completions *)

Inductive JSError : Type :=
| TypeError
| SyntaxError
| OtherError (message : string).

Inductive Completion (A : Type) : Type :=
| Normal (a : A)
| Throw (e : JSError).
Arguments Normal {A} a.
Arguments Throw {A} e.

(** [a || b] on strings that may be undefined: the empty string and
    [undefined] are the falsy ones. *)
Definition or_default (a : option string) (b : string) : string :=
  match a with
  | Some s => if decide (s = "") then b else s
  | None => b
  end.

(** [Array.prototype.splice(start, deleteCount)] for an in-range,
    non-negative [start]: the removed elements, and the array as it is
    left. *)
Definition splice {A : Type} (start deleteCount : nat) (l : list A)
  : list A * list A :=
  (take deleteCount (drop start l),
   take start l ++ drop (start + deleteCount) l).

(** ** Data *)

(** [dsv.DSVRowString]: an object from column name to cell text. *)
Abbreviation DSVRowString := (gmap string (option string)).

(** [row[col]]: an absent property reads as [undefined]. *)
Definition get_prop (row : DSVRowString) (col : string) : option string :=
  mjoin (row !! col).

(** [dsv.DSVParsedArray<DSVRowString>]: the array of rows, and the
    [columns] property the parser attaches to it. *)
Record DSVParsedArray : Type := mkParsed {
  rows : list DSVRowString;
  columns : option (list string)
}.

(** [CSVModel.IOverflow] *)
Record IOverflow : Type := mkOverflow {
  available : Z;
  maximum : Z
}.

(** [CSVModel.IOptions] *)
Record IOptions : Type := mkOptions {
  opt_content : option string;
  opt_delimiter : option string
}.

(** The options object [{}], the constructor's default argument. *)
Definition no_options : IOptions := mkOptions None None.

(** A connected receiver of a signal. *)
Definition Slot : Type := nat.

(** One call of [signal.emit(args)]. *)
Inductive Emission : Type :=
| StateChanged
| MaxExceeded (args : IOverflow).

(** The receiver: the two private fields, the [isDisposed] flag of
    [VDomModel], and the connections of the two signals. *)
Record CSVModel : Type := mkCSVModel {
  _content : option string;
  _delimiter : string;
  isDisposed : bool;
  stateChanged : list Slot;
  maxExceeded : list Slot
}.

Definition set__content (v : option string) (this : CSVModel) : CSVModel :=
  mkCSVModel v (_delimiter this) (isDisposed this)
             (stateChanged this) (maxExceeded this).

Definition set__delimiter (v : string) (this : CSVModel) : CSVModel :=
  mkCSVModel (_content this) v (isDisposed this)
             (stateChanged this) (maxExceeded this).

Definition set_isDisposed (v : bool) (this : CSVModel) : CSVModel :=
  mkCSVModel (_content this) (_delimiter this) v
             (stateChanged this) (maxExceeded this).

(** [clearSignalData(this)]: every connection of which the object is the
    sender is removed. *)
Definition clearSignalData (this : CSVModel) : CSVModel :=
  mkCSVModel (_content this) (_delimiter this) (isDisposed this) [] [].

(** [this.stateChanged.connect(slot)] and [this.maxExceeded.connect(slot)]:
    a slot is connected at most once. *)
Definition connect_stateChanged (slot : Slot) (this : CSVModel) : CSVModel :=
  if decide (slot ∈ stateChanged this) then this
  else mkCSVModel (_content this) (_delimiter this) (isDisposed this)
                  (stateChanged this ++ [slot]) (maxExceeded this).

Definition connect_maxExceeded (slot : Slot) (this : CSVModel) : CSVModel :=
  if decide (slot ∈ maxExceeded this) then this
  else mkCSVModel (_content this) (_delimiter this) (isDisposed this)
                  (stateChanged this) (maxExceeded this ++ [slot]).

(** The receivers an emission is delivered to, in connection order. *)
Definition receivers (e : Emission) (this : CSVModel) : list Slot :=
  match e with
  | StateChanged => stateChanged this
  | MaxExceeded _ => maxExceeded this
  end.

Definition is_StateChanged (e : Emission) : bool :=
  match e with StateChanged => true | MaxExceeded _ => false end.

(** ** The method monad *)

Definition M (A : Type) : Type :=
  CSVModel -> Completion A * CSVModel * list Emission.

Definition ret {A : Type} (a : A) : M A :=
  fun this => (Normal a, this, []).

Definition bind {A B : Type} (c : M A) (k : A -> M B) : M B :=
  fun this =>
    match c this with
    | (Normal a, this1, tr1) =>
        match k a this1 with
        | (r, this2, tr2) => (r, this2, tr1 ++ tr2)
        end
    | (Throw e, this1, tr1) => (Throw e, this1, tr1)
    end.

Definition get_this : M CSVModel :=
  fun this => (Normal this, this, []).

Definition modify (f : CSVModel -> CSVModel) : M unit :=
  fun this => (Normal tt, f this, []).

Definition emit (e : Emission) : M unit :=
  fun this => (Normal tt, this, [e]).

Definition complete {A : Type} (c : Completion A) : M A :=
  fun this => (c, this, []).

Declare Scope method_scope.
Delimit Scope method_scope with method.
Notation "x <- c ;; k" := (bind c (fun x => k))
  (at level 100, c at next level, right associativity) : method_scope.
Notation "c ;;; k" := (bind c (fun _ => k))
  (at level 100, right associativity) : method_scope.

(** The three components of a finished call. *)
Definition result {A : Type} (o : Completion A * CSVModel * list Emission)
  : Completion A := o.1.1.
Definition after {A : Type} (o : Completion A * CSVModel * list Emission)
  : CSVModel := o.1.2.
Definition emitted {A : Type} (o : Completion A * CSVModel * list Emission)
  : list Emission := o.2.

(** ** CSVModel *)

(** The constructor. The field initialisers run after [super()] and before
    the constructor body. *)
Definition CSVModel_new (options : IOptions) : CSVModel :=
  let this := mkCSVModel None "" false [] [] in          (* super() *)
  let this := set__content (Some "") this in             (* _content = '' *)
  let this := set__delimiter "" this in                  (* _delimiter = '' *)
  let this := set__content (opt_content options) this in
  let this := set__delimiter (or_default (opt_delimiter options) ",") this in
  this.

(** [get content] *)
Definition content (this : CSVModel) : option string := _content this.

(** [set content] *)
Definition set_content (content : string) : M unit :=
  (this <- get_this ;;
   if decide (_content this = Some content) then ret tt
   else
     modify (set__content (Some content)) ;;;
     emit StateChanged)%method.

(** [get delimiter] *)
Definition delimiter (this : CSVModel) : string := _delimiter this.

(** [set delimiter] *)
Definition set_delimiter (delimiter : string) : M unit :=
  (this <- get_this ;;
   if decide (_delimiter this = delimiter) then ret tt
   else
     modify (set__delimiter delimiter) ;;;
     emit StateChanged)%method.

(** Modelled from the spec: [VDomModel.dispose] of [../common/vdom], the
    superclass method that [CSVModel.dispose] calls, is not in the file. The
    specification says of disposal that it marks the model disposed; the
    release of the observers is the [clearSignalData] call of
    [CSVModel.dispose] itself. *)
Definition VDomModel_dispose : M unit :=
  modify (set_isDisposed true).

(** [dispose()] *)
Definition dispose : M unit :=
  (this <- get_this ;;
   if isDisposed this then ret tt
   else
     VDomModel_dispose ;;;
     modify clearSignalData)%method.

(** ** Virtual DOM nodes

    The nodes the [h] factories of phosphor build, as [render] calls them:
    with an array of child nodes ([h.table], [h.thead], [h.tbody], [h.tr]),
    or with the text of a cell, which may be [undefined] ([h.th], [h.td]). *)
Inductive VNode : Type :=
| h_cell (tag : string) (content : option string)
| h_elem (tag : string) (children : list VNode).

Definition h_table : list VNode -> VNode := h_elem "table".
Definition h_thead : list VNode -> VNode := h_elem "thead".
Definition h_tbody : list VNode -> VNode := h_elem "tbody".
Definition h_tr : list VNode -> VNode := h_elem "tr".
Definition h_th (col : string) : VNode := h_cell "th" (Some col).
Definition h_td (value : option string) : VNode := h_cell "td" value.

Section Model.

(** [dsv.dsvFormat(delimiter).parse(content)] of the d3-dsv library: it
    returns a parsed array or throws. *)
Variable dsvFormat_parse : string -> option string -> Completion DSVParsedArray.

(** [parse()]. The [splice] call works on [output] in place and its result
    (the removed rows) is dropped, so the rebinding of [output] below is the
    array as [splice] leaves it; [output.length] is read after it. *)
Definition parse : M DSVParsedArray :=
  (this <- get_this ;;
   output <- complete (dsvFormat_parse (_delimiter this) (_content this)) ;;
   if Z.of_nat (length (rows output)) >? DISPLAY_LIMIT then
     let output :=
       mkParsed (splice 0 (Z.to_nat DISPLAY_LIMIT) (rows output)).2
                (columns output) in
     emit (MaxExceeded {| available := Z.of_nat (length (rows output));
                          maximum := DISPLAY_LIMIT |}) ;;;
     ret output
   else ret output)%method.

(** ** CSVTable *)

(** [render()], run on the bound model [this.model]. *)
Definition render : M VNode :=
  (rows_ <- parse ;;
   let cols := default [] (columns rows_) in
   ret (h_table [
     h_thead (map (fun col => h_th col) cols);
     h_tbody (map (fun row =>
                h_tr (map (fun col => h_td (get_prop row col)) cols))
              (rows rows_))
   ]))%method.

End Model.

(** ** The d3-dsv parser

    The algorithm of [dsvFormat(delimiter).parse(text)] in d3-dsv 1.0, on
    the characters of the text. The reading position [I] is the suffix that
    is left, [eol] is the flag of the same name. A character is a byte here
    and a UTF-16 code unit in d3; the two agree on ASCII text, which is what
    the examples use. *)
Module D3Dsv.

Definition LF : ascii := "010"%char.
Definition CR : ascii := "013"%char.
Definition DQUOTE : ascii := "034"%char.

Inductive Token : Type :=
| Field (t : list ascii)
| EOL
| EOF.

(** The quoted case of [token]: from the character after the opening quote,
    the slice up to the closing quote and the text after that quote, or the
    whole rest when no quote closes it. *)
Fixpoint quoted (s : list ascii) : list ascii * option (list ascii) :=
  match s with
  | [] => ([], None)
  | c :: s1 =>
      if decide (c = DQUOTE) then
        match s1 with
        | c1 :: s2 =>
            if decide (c1 = DQUOTE) then
              let '(t, r) := quoted s2 in (c :: c1 :: t, r)
            else ([], Some s1)
        | [] => ([], Some [])
        end
      else let '(t, r) := quoted s1 in (c :: t, r)
  end.

(** The [replace] call of the quoted case: every pair of double quotes
    becomes one double quote, left to right. *)
Fixpoint unescape (s : list ascii) : list ascii :=
  match s with
  | c :: s1 =>
      match s1 with
      | c1 :: s2 =>
          if decide (c = DQUOTE /\ c1 = DQUOTE) then DQUOTE :: unescape s2
          else c :: unescape s1
      | [] => [c]
      end
  | [] => []
  end.

(** The common case of [token]: the text up to the next delimiter or line
    end, the text after it, and whether a line ended. *)
Fixpoint unquoted (delimiterCode : option ascii) (s : list ascii)
  : list ascii * list ascii * bool :=
  match s with
  | [] => ([], [], false)
  | c :: s1 =>
      if decide (c = LF) then ([], s1, true)
      else if decide (c = CR) then
        match s1 with
        | c1 :: s2 => if decide (c1 = LF) then ([], s2, true) else ([], s1, true)
        | [] => ([], s1, true)
        end
      else if decide (Some c = delimiterCode) then ([], s1, false)
      else let '(t, r, e) := unquoted delimiterCode s1 in (c :: t, r, e)
  end.

(** [token()]: the token, the text left, and [eol]. *)
Definition token (delimiterCode : option ascii) (s : list ascii) (eol : bool)
  : Token * list ascii * bool :=
  match s with
  | [] => (EOF, s, eol)
  | c :: s1 =>
      if eol then (EOL, s, false)
      else if decide (c = DQUOTE) then
        match quoted s1 with
        | (t, None) => (Field (unescape t), [], eol)
        | (t, Some []) => (Field (unescape t), [], eol)
        | (t, Some (c1 :: s2)) =>
            if decide (c1 = CR) then
              match s2 with
              | c2 :: s3 =>
                  if decide (c2 = LF) then (Field (unescape t), s3, true)
                  else (Field (unescape t), s2, true)
              | [] => (Field (unescape t), s2, true)
              end
            else if decide (c1 = LF) then (Field (unescape t), s2, true)
            else (Field (unescape t), s2, eol)
        end
      else
        let '(t, r, e) := unquoted delimiterCode s in
        (Field t, r, if e then true else eol)
  end.

(** The two loops of [parseRows], without a row callback: [a] is the row
    being read ([None] between rows). Each turn calls [token] once; the fuel
    bounds the number of calls. *)
Fixpoint parseRows_loop (fuel : nat) (delimiterCode : option ascii)
    (s : list ascii) (eol : bool) (a : option (list string))
  : list (list string) :=
  match fuel with
  | O => []
  | S fuel =>
      match token delimiterCode s eol, a with
      | (EOF, _, _), None => []
      | (EOF, _, _), Some a => [a]
      | (EOL, s, eol), None => [] :: parseRows_loop fuel delimiterCode s eol None
      | (EOL, s, eol), Some a => a :: parseRows_loop fuel delimiterCode s eol None
      | (Field t, s, eol), None =>
          parseRows_loop fuel delimiterCode s eol
                         (Some [String.string_of_list_ascii t])
      | (Field t, s, eol), Some a =>
          parseRows_loop fuel delimiterCode s eol
                         (Some (a ++ [String.string_of_list_ascii t]))
      end
  end.

(** [delimiter.charCodeAt(0)]: no code for the empty string. *)
Definition charCodeAt0 (delimiter : string) : option ascii :=
  match delimiter with
  | String c _ => Some c
  | EmptyString => None
  end.

Definition parseRows (delimiter : string) (text : string) : list (list string) :=
  parseRows_loop (2 * String.length text + 2) (charCodeAt0 delimiter)
                 (String.list_ascii_of_string text) false None.

(** [objectConverter(columns)(d)]: the object literal with one property per
    column name, in column order, a repeated name keeping its last value. *)
Fixpoint objectConverter_from (i : nat) (columns : list string)
    (d : list string) (o : DSVRowString) : DSVRowString :=
  match columns with
  | [] => o
  | name :: columns =>
      objectConverter_from (S i) columns d (<[name := d !! i]> o)
  end.

Definition objectConverter (columns : list string) (d : list string)
  : DSVRowString :=
  objectConverter_from 0 columns d ∅.

(** [parse(text)]: the first row is the header and becomes [columns]; no
    row at all leaves [columns] undefined. Reading [text.length] of
    [undefined] throws. *)
Definition parse (delimiter : string) (text : option string)
  : Completion DSVParsedArray :=
  match text with
  | None => Throw TypeError
  | Some text =>
      match parseRows delimiter text with
      | [] => Normal (mkParsed [] None)
      | header :: body =>
          Normal (mkParsed (map (objectConverter header) body) (Some header))
      end
  end.

End D3Dsv.

Definition nl : string := String D3Dsv.LF "".

(** A text of [n] data rows under the header [n]: row [i] holds the decimal
    numeral of [i]. *)
Definition numbered (n : nat) : string :=
  foldr (fun i s => pretty i +:+ nl +:+ s) "" (seq 0 n).
Definition numbered_csv (n : nat) : string := "n" +:+ nl +:+ numbered n.

(** The model [new CSVModel({content: text})]. *)
Definition model_of (text : string) : CSVModel :=
  CSVModel_new (mkOptions (Some text) None).

(** The rows [{n: "i"}] for [i] from [start], [len] of them. *)
Definition numbered_rows (start len : nat) : list DSVRowString :=
  map (fun i : nat => {[ "n" := Some (pretty i) ]}) (seq start len).

(** The text of the example: the header [a,b] and the lines [1,2], [3,4]. *)
Definition example_csv : string := "a,b" +:+ nl +:+ "1,2" +:+ nl +:+ "3,4".

(** The number of [stateChanged] signals in a trace. *)
Definition count_StateChanged (tr : list Emission) : nat :=
  length (List.filter is_StateChanged tr).

(** [n] calls of a method in a row. *)
Definition times (n : nat) (c : M unit) : M unit :=
  Nat.iter n (fun k => (c ;;; k)%method) (ret tt).

(** What is left for [token] to read, with the pending line end counted. *)
Definition token_budget (s : list ascii) (eol : bool) : nat :=
  (2 * length s + (if eol then 1 else 0))%nat.

(** ** A host driving one model

    The calls a host makes on a model, and a straight-line sequence of them:
    a call that throws ends the sequence. What [parse()] and [render()]
    return is dropped. *)
Inductive Call : Type :=
| SetContent (v : string)
| SetDelimiter (v : string)
| Dispose
| Parse
| Render.

Definition is_setter (c : Call) : bool :=
  match c with
  | SetContent _ | SetDelimiter _ => true
  | _ => false
  end.

Definition is_parsing (c : Call) : bool :=
  match c with
  | Parse | Render => true
  | _ => false
  end.

Definition call
    (dsvFormat_parse : string -> option string -> Completion DSVParsedArray)
    (c : Call) : M unit :=
  match c with
  | SetContent v => set_content v
  | SetDelimiter v => set_delimiter v
  | Dispose => dispose
  | Parse => (parse dsvFormat_parse ;;; ret tt)%method
  | Render => (render dsvFormat_parse ;;; ret tt)%method
  end.

Fixpoint calls
    (dsvFormat_parse : string -> option string -> Completion DSVParsedArray)
    (cs : list Call) : M unit :=
  match cs with
  | [] => ret tt
  | c :: cs => (call dsvFormat_parse c ;;; calls dsvFormat_parse cs)%method
  end.

(** The number of [maxExceeded] signals in a trace. *)
Definition count_MaxExceeded (tr : list Emission) : nat :=
  length (List.filter (fun e => negb (is_StateChanged e)) tr).

(** * Properties *)

(** Closes an equation between closed terms by evaluation. *)
Ltac by_evaluation :=
  lazymatch goal with
  | |- ?l = ?r => vm_cast_no_check (@eq_refl _ r)
  end.

(** ** The fuel of the d3 model

    Every call of [token] that does not return [EOF] either consumes a
    character or clears [eol], so the loop of [parseRows] ends before its
    fuel does: more fuel gives the same rows. *)

Local Open Scope nat_scope.

Lemma quoted_rest (s t r : list ascii) :
  D3Dsv.quoted s = (t, Some r) -> length r < length s.
Proof.
  revert t r. induction s as [s IH] using (induction_ltof1 _ (@length ascii)).
  unfold ltof in IH. intros t r. destruct s as [|c s1]; cbn [D3Dsv.quoted].
  - discriminate.
  - destruct (decide (c = D3Dsv.DQUOTE)) as [_|_].
    + destruct s1 as [|c1 s2].
      * intros ?; simplify_eq. cbn. lia.
      * destruct (decide (c1 = D3Dsv.DQUOTE)) as [_|_].
        -- destruct (D3Dsv.quoted s2) as [t2 r2] eqn:Hq. intros ?; simplify_eq.
           apply IH in Hq; cbn in *; lia.
        -- intros ?; simplify_eq. cbn. lia.
    + destruct (D3Dsv.quoted s1) as [t1 r1] eqn:Hq. intros ?; simplify_eq.
      apply IH in Hq; cbn in *; lia.
Qed.

Lemma unquoted_rest (d : option ascii) (s t r : list ascii) (e : bool) :
  D3Dsv.unquoted d s = (t, r, e) -> length r <= length s.
Proof.
  revert t r e. induction s as [|c s1 IH]; intros t r e; cbn [D3Dsv.unquoted].
  - intros ?; simplify_eq. cbn. lia.
  - destruct (decide (c = D3Dsv.LF)) as [_|_].
    { intros ?; simplify_eq. cbn. lia. }
    destruct (decide (c = D3Dsv.CR)) as [_|_].
    { destruct s1 as [|c1 s2].
      - intros ?; simplify_eq. cbn. lia.
      - destruct (decide (c1 = D3Dsv.LF)); intros ?; simplify_eq; cbn; lia. }
    destruct (decide (Some c = d)) as [_|_].
    { intros ?; simplify_eq. cbn. lia. }
    destruct (D3Dsv.unquoted d s1) as [[t1 r1] e1] eqn:Hu.
    intros ?; simplify_eq. specialize (IH _ _ _ eq_refl). cbn. lia.
Qed.

Lemma unquoted_rest_cons (d : option ascii) (c : ascii) (s t r : list ascii)
    (e : bool) :
  D3Dsv.unquoted d (c :: s) = (t, r, e) -> length r <= length s.
Proof.
  cbn [D3Dsv.unquoted].
  destruct (decide (c = D3Dsv.LF)) as [_|_].
  { intros ?; simplify_eq. lia. }
  destruct (decide (c = D3Dsv.CR)) as [_|_].
  { destruct s as [|c1 s2].
    - intros ?; simplify_eq. lia.
    - destruct (decide (c1 = D3Dsv.LF)); intros ?; simplify_eq; cbn; lia. }
  destruct (decide (Some c = d)) as [_|_].
  { intros ?; simplify_eq. lia. }
  destruct (D3Dsv.unquoted d s) as [[t1 r1] e1] eqn:Hu.
  intros ?; simplify_eq. exact (unquoted_rest _ _ _ _ _ Hu).
Qed.

Lemma token_progress (d : option ascii) (s s1 : list ascii) (eol eol1 : bool)
    (t : D3Dsv.Token) :
  D3Dsv.token d s eol = (t, s1, eol1) ->
  t <> D3Dsv.EOF ->
  token_budget s1 eol1 < token_budget s eol.
Proof.
  unfold token_budget, D3Dsv.token. destruct s as [|c s0].
  { intros ? Hne. simplify_eq. }
  destruct eol.
  { intros ? _; simplify_eq. lia. }
  destruct (decide (c = D3Dsv.DQUOTE)) as [_|_].
  - destruct (D3Dsv.quoted s0) as [tq [rq|]] eqn:Hq.
    + apply quoted_rest in Hq.
      destruct rq as [|c1 s2].
      { intros ? _; simplify_eq. cbn. lia. }
      destruct (decide (c1 = D3Dsv.CR)) as [_|_].
      { destruct s2 as [|c2 s3].
        - intros ? _; simplify_eq. cbn in *. lia.
        - destruct (decide (c2 = D3Dsv.LF));
            intros ? _; simplify_eq; cbn in *; lia. }
      destruct (decide (c1 = D3Dsv.LF));
        intros ? _; simplify_eq; cbn in *; lia.
    + intros ? _; simplify_eq. cbn. lia.
  - destruct (D3Dsv.unquoted d (c :: s0)) as [[tu ru] eu] eqn:Hu.
    apply unquoted_rest_cons in Hu.
    intros ? _; simplify_eq. cbn [length]. destruct eu; lia.
Qed.

Lemma parseRows_loop_fuel (d : option ascii) (fuel1 fuel2 : nat)
    (s : list ascii) (eol : bool) (a : option (list string)) :
  token_budget s eol < fuel1 ->
  token_budget s eol < fuel2 ->
  D3Dsv.parseRows_loop fuel1 d s eol a = D3Dsv.parseRows_loop fuel2 d s eol a.
Proof.
  revert fuel2 s eol a.
  induction fuel1 as [|fuel1 IH]; intros fuel2 s eol a H1 H2; [lia|].
  destruct fuel2 as [|fuel2]; [lia|].
  cbn [D3Dsv.parseRows_loop].
  destruct (D3Dsv.token d s eol) as [[t s1] eol1] eqn:Ht.
  destruct t as [t| |].
  - pose proof (token_progress _ _ _ _ _ _ Ht ltac:(discriminate)) as Hlt.
    destruct a; apply IH; lia.
  - pose proof (token_progress _ _ _ _ _ _ Ht ltac:(discriminate)) as Hlt.
    destruct a; f_equal; apply IH; lia.
  - reflexivity.
Qed.

Lemma length_list_ascii_of_string (text : string) :
  length (String.list_ascii_of_string text) = String.length text.
Proof.
  induction text as [|c text IH]; [reflexivity|].
  cbn [String.list_ascii_of_string length String.length]. rewrite IH.
  reflexivity.
Qed.

(** [parseRows] has the fuel it needs: with any amount more, the rows are
    the same. *)
Lemma parseRows_fuel_enough (delimiter text : string) (more : nat) :
  D3Dsv.parseRows_loop (2 * String.length text + 2 + more)
    (D3Dsv.charCodeAt0 delimiter) (String.list_ascii_of_string text) false None
  = D3Dsv.parseRows delimiter text.
Proof.
  unfold D3Dsv.parseRows.
  apply parseRows_loop_fuel; unfold token_budget;
    rewrite length_list_ascii_of_string; lia.
Qed.

Local Close Scope nat_scope.

(** ** The outcome of [parse] *)

Lemma splice_0 {A : Type} (n : nat) (l : list A) :
  (splice 0 n l).2 = drop n l.
Proof. reflexivity. Qed.

Lemma length_drop_limit {A : Type} (l : list A) :
  DISPLAY_LIMIT < Z.of_nat (length l) ->
  Z.of_nat (length (drop (Z.to_nat DISPLAY_LIMIT) l))
  = Z.of_nat (length l) - DISPLAY_LIMIT.
Proof.
  intros Hlt. rewrite length_drop. unfold DISPLAY_LIMIT in *. lia.
Qed.

Section ParseOutcome.

Variable dsvFormat_parse : string -> option string -> Completion DSVParsedArray.
Variable this : CSVModel.

Lemma parse_throws (e : JSError) :
  dsvFormat_parse (_delimiter this) (_content this) = Throw e ->
  parse dsvFormat_parse this = (Throw e, this, []).
Proof.
  intros Hp. unfold parse, bind, get_this, complete. rewrite Hp. reflexivity.
Qed.

Lemma parse_small (output : DSVParsedArray) :
  dsvFormat_parse (_delimiter this) (_content this) = Normal output ->
  Z.of_nat (length (rows output)) <= DISPLAY_LIMIT ->
  parse dsvFormat_parse this = (Normal output, this, []).
Proof.
  intros Hp Hle. unfold parse, bind, get_this, complete. rewrite Hp.
  destruct (Z.gtb_spec (Z.of_nat (length (rows output))) DISPLAY_LIMIT) as [Hgt|_].
  - lia.
  - reflexivity.
Qed.

Lemma parse_large (output : DSVParsedArray) :
  dsvFormat_parse (_delimiter this) (_content this) = Normal output ->
  DISPLAY_LIMIT < Z.of_nat (length (rows output)) ->
  parse dsvFormat_parse this
  = (Normal (mkParsed (drop (Z.to_nat DISPLAY_LIMIT) (rows output))
                      (columns output)),
     this,
     [MaxExceeded
        {| available := Z.of_nat (length (rows output)) - DISPLAY_LIMIT;
           maximum := DISPLAY_LIMIT |}]).
Proof.
  intros Hp Hlt. unfold parse, bind, get_this, complete, emit, ret. rewrite Hp.
  destruct (Z.gtb_spec (Z.of_nat (length (rows output))) DISPLAY_LIMIT) as [_|Hle].
  - cbn [rows columns]. rewrite splice_0, length_drop_limit by exact Hlt.
    reflexivity.
  - lia.
Qed.

End ParseOutcome.

(** The d3 parser on the numbered texts used below. *)
Lemma d3_parse_numbered_1500 :
  D3Dsv.parse "," (Some (numbered_csv 1500))
  = Normal (mkParsed (numbered_rows 0 1500) (Some ["n"])).
Proof. by_evaluation. Qed.

Lemma d3_parse_numbered_1000 :
  D3Dsv.parse "," (Some (numbered_csv 1000))
  = Normal (mkParsed (numbered_rows 0 1000) (Some ["n"])).
Proof. by_evaluation. Qed.

Lemma d3_parse_numbered_2001 :
  D3Dsv.parse "," (Some (numbered_csv 2001))
  = Normal (mkParsed (numbered_rows 0 2001) (Some ["n"])).
Proof. by_evaluation. Qed.

(** ** Row limit *)

(** C1, on the code: whenever the parser returns more than 1000 rows for
    the content string, [parse()] does not return the first 1000 of them.
    The [splice(0, DISPLAY_LIMIT)] call removes the first 1000 rows from the
    array that is returned, so the result is the rows after the first 1000.
    For a text of 1500 data rows (the header [n], then the rows 0 to 1499)
    these are the 500 rows numbered 1000 to 1499, not the rows 0 to 999;
    for 2001 data rows they are the 1001 rows numbered 1000 to 2000, more
    than the limit. *)
Theorem parse_over_limit_returns_rows_after_limit
    (dsvFormat_parse : string -> option string -> Completion DSVParsedArray)
    (this : CSVModel) (text : string) (output : DSVParsedArray) :
  (content this = Some text ->
   dsvFormat_parse (delimiter this) (Some text) = Normal output ->
   DISPLAY_LIMIT < Z.of_nat (length (rows output)) ->
   result (parse dsvFormat_parse this)
   = Normal (mkParsed (drop 1000 (rows output)) (columns output)))
  /\ result (parse D3Dsv.parse (model_of (numbered_csv 1500)))
     = Normal (mkParsed (numbered_rows 1000 500) (Some ["n"]))
  /\ take 1000 (numbered_rows 0 1500) = numbered_rows 0 1000
  /\ length (numbered_rows 1000 500) = 500%nat
  /\ result (parse D3Dsv.parse (model_of (numbered_csv 2001)))
     = Normal (mkParsed (numbered_rows 1000 1001) (Some ["n"]))
  /\ length (numbered_rows 1000 1001) = 1001%nat.
Proof.
  split; [|split; [|split; [|split; [|split]]]].
  - unfold content, delimiter. intros Hc Hp Hlt. rewrite <- Hc in Hp.
    rewrite (parse_large _ _ _ Hp Hlt). reflexivity.
  - rewrite (parse_large D3Dsv.parse (model_of (numbered_csv 1500)) _
               d3_parse_numbered_1500).
    + by_evaluation.
    + vm_compute. reflexivity.
  - by_evaluation.
  - by_evaluation.
  - rewrite (parse_large D3Dsv.parse (model_of (numbered_csv 2001)) _
               d3_parse_numbered_2001).
    + by_evaluation.
    + vm_compute. reflexivity.
  - by_evaluation.
Qed.

Lemma parse_over_limit_returns_rows_after_limit_witness :
  result (parse D3Dsv.parse (model_of (numbered_csv 1500)))
  = Normal (mkParsed (drop 1000 (numbered_rows 0 1500)) (Some ["n"])).
Proof.
  apply (proj1 (parse_over_limit_returns_rows_after_limit D3Dsv.parse
           (model_of (numbered_csv 1500)) (numbered_csv 1500)
           (mkParsed (numbered_rows 0 1500) (Some ["n"])))).
  - reflexivity.
  - exact d3_parse_numbered_1500.
  - vm_compute. reflexivity.
Defined.

(** C2, on the code: whenever the parser returns more than 1000 rows for
    the content string, [parse()] emits one signal, a [maxExceeded] with
    [maximum] 1000, but its [available] is the length of the array after
    [splice] removed 1000 rows: the parsed row count less 1000, and not the
    parsed row count. For the text of 1500 data rows it is 500. *)
Theorem parse_over_limit_notice
    (dsvFormat_parse : string -> option string -> Completion DSVParsedArray)
    (this : CSVModel) (text : string) (output : DSVParsedArray) :
  (content this = Some text ->
   dsvFormat_parse (delimiter this) (Some text) = Normal output ->
   DISPLAY_LIMIT < Z.of_nat (length (rows output)) ->
   emitted (parse dsvFormat_parse this)
   = [MaxExceeded {| available := Z.of_nat (length (rows output)) - 1000;
                     maximum := 1000 |}])
  /\ emitted (parse D3Dsv.parse (model_of (numbered_csv 1500)))
     = [MaxExceeded {| available := 500; maximum := 1000 |}].
Proof.
  split.
  - unfold content, delimiter. intros Hc Hp Hlt. rewrite <- Hc in Hp.
    rewrite (parse_large _ _ _ Hp Hlt). reflexivity.
  - rewrite (parse_large D3Dsv.parse (model_of (numbered_csv 1500)) _
               d3_parse_numbered_1500).
    + by_evaluation.
    + vm_compute. reflexivity.
Qed.

Lemma parse_over_limit_notice_witness :
  emitted (parse D3Dsv.parse (model_of (numbered_csv 1500)))
  = [MaxExceeded
       {| available := Z.of_nat (length (numbered_rows 0 1500)) - 1000;
          maximum := 1000 |}].
Proof.
  apply (proj1 (parse_over_limit_notice D3Dsv.parse
           (model_of (numbered_csv 1500)) (numbered_csv 1500)
           (mkParsed (numbered_rows 0 1500) (Some ["n"])))).
  - reflexivity.
  - exact d3_parse_numbered_1500.
  - vm_compute. reflexivity.
Defined.

(** C3: for every content string whose parsed row count is at most 1000,
    [parse()] returns the parsed array as the parser produced it, with
    exactly that many rows, and emits no signal, so no [maxExceeded]. *)
Theorem parse_within_limit
    (dsvFormat_parse : string -> option string -> Completion DSVParsedArray)
    (this : CSVModel) (text : string) (output : DSVParsedArray) :
  content this = Some text ->
  dsvFormat_parse (delimiter this) (Some text) = Normal output ->
  Z.of_nat (length (rows output)) <= DISPLAY_LIMIT ->
  exists returned,
    result (parse dsvFormat_parse this) = Normal returned
    /\ returned = output
    /\ length (rows returned) = length (rows output)
    /\ emitted (parse dsvFormat_parse this) = [].
Proof.
  intros Hc Hp Hle. unfold content, delimiter in *. rewrite <- Hc in Hp.
  exists output. rewrite (parse_small _ _ _ Hp Hle). auto.
Qed.

Lemma parse_within_limit_witness :
  exists returned,
    result (parse D3Dsv.parse (model_of (numbered_csv 1000))) = Normal returned
    /\ returned = mkParsed (numbered_rows 0 1000) (Some ["n"])
    /\ length (rows returned) = length (numbered_rows 0 1000)
    /\ emitted (parse D3Dsv.parse (model_of (numbered_csv 1000))) = [].
Proof.
  apply (parse_within_limit D3Dsv.parse (model_of (numbered_csv 1000))
           (numbered_csv 1000)).
  - reflexivity.
  - exact d3_parse_numbered_1000.
  - vm_compute. discriminate.
Defined.

(** C10: [parse()] leaves the model as it was: [content] and [delimiter]
    (and every other field) are the same after the call, whether it returns
    or throws, and no [stateChanged] signal is among those it emits. *)
Theorem parse_frame
    (dsvFormat_parse : string -> option string -> Completion DSVParsedArray)
    (this : CSVModel) :
  content (after (parse dsvFormat_parse this)) = content this
  /\ delimiter (after (parse dsvFormat_parse this)) = delimiter this
  /\ after (parse dsvFormat_parse this) = this
  /\ List.filter is_StateChanged (emitted (parse dsvFormat_parse this)) = [].
Proof.
  destruct (dsvFormat_parse (_delimiter this) (_content this))
    as [output|e] eqn:Hp.
  - destruct (Z.le_gt_cases (Z.of_nat (length (rows output))) DISPLAY_LIMIT)
      as [Hle|Hlt].
    + rewrite (parse_small _ _ _ Hp Hle). auto.
    + rewrite (parse_large _ _ _ Hp Hlt). auto.
  - rewrite (parse_throws _ _ _ Hp). auto.
Qed.

(** ** Setters *)

Lemma set_content_same (this : CSVModel) (v : string) :
  _content this = Some v -> set_content v this = (Normal tt, this, []).
Proof.
  intros Heq. unfold set_content, bind, get_this.
  destruct (decide (_content this = Some v)); [reflexivity | contradiction].
Qed.

Lemma set_content_new (this : CSVModel) (v : string) :
  _content this <> Some v ->
  set_content v this = (Normal tt, set__content (Some v) this, [StateChanged]).
Proof.
  intros Hne. unfold set_content, bind, get_this.
  destruct (decide (_content this = Some v)); [contradiction | reflexivity].
Qed.

Lemma set_delimiter_same (this : CSVModel) (v : string) :
  _delimiter this = v -> set_delimiter v this = (Normal tt, this, []).
Proof.
  intros Heq. unfold set_delimiter, bind, get_this.
  destruct (decide (_delimiter this = v)); [reflexivity | contradiction].
Qed.

Lemma set_delimiter_new (this : CSVModel) (v : string) :
  _delimiter this <> v ->
  set_delimiter v this = (Normal tt, set__delimiter v this, [StateChanged]).
Proof.
  intros Hne. unfold set_delimiter, bind, get_this.
  destruct (decide (_delimiter this = v)); [contradiction | reflexivity].
Qed.

(** Whatever it was before, the delimiter is the assigned string after the
    setter ran. *)
Lemma delimiter_after_set (this : CSVModel) (v : string) :
  delimiter (after (set_delimiter v this)) = v.
Proof.
  destruct (decide (_delimiter this = v)) as [Heq|Hne].
  - rewrite (set_delimiter_same _ _ Heq). exact Heq.
  - rewrite (set_delimiter_new _ _ Hne). reflexivity.
Qed.


(** C4: for every model and every string [v], assigning [v] to [content]
    when [content] is already [v] returns with the model unchanged and no
    signal emitted; assigning it when [content] differs stores [v], leaves
    the other fields alone and emits exactly one signal, a [stateChanged].
    The same holds of [delimiter]. *)
Theorem setters_notify_on_change (this : CSVModel) (v : string) :
  (content this = Some v ->
     result (set_content v this) = Normal tt
     /\ after (set_content v this) = this
     /\ emitted (set_content v this) = [])
  /\ (content this <> Some v ->
     result (set_content v this) = Normal tt
     /\ content (after (set_content v this)) = Some v
     /\ delimiter (after (set_content v this)) = delimiter this
     /\ isDisposed (after (set_content v this)) = isDisposed this
     /\ stateChanged (after (set_content v this)) = stateChanged this
     /\ maxExceeded (after (set_content v this)) = maxExceeded this
     /\ emitted (set_content v this) = [StateChanged]
     /\ count_StateChanged (emitted (set_content v this)) = 1%nat)
  /\ (delimiter this = v ->
     result (set_delimiter v this) = Normal tt
     /\ after (set_delimiter v this) = this
     /\ emitted (set_delimiter v this) = [])
  /\ (delimiter this <> v ->
     result (set_delimiter v this) = Normal tt
     /\ delimiter (after (set_delimiter v this)) = v
     /\ content (after (set_delimiter v this)) = content this
     /\ isDisposed (after (set_delimiter v this)) = isDisposed this
     /\ stateChanged (after (set_delimiter v this)) = stateChanged this
     /\ maxExceeded (after (set_delimiter v this)) = maxExceeded this
     /\ emitted (set_delimiter v this) = [StateChanged]
     /\ count_StateChanged (emitted (set_delimiter v this)) = 1%nat).
Proof.
  unfold content, delimiter. repeat split.
  all: try (rewrite set_content_same by assumption; reflexivity).
  all: try (rewrite set_content_new by assumption; reflexivity).
  all: try (rewrite set_delimiter_same by assumption; reflexivity).
  all: rewrite set_delimiter_new by assumption; reflexivity.
Qed.

Lemma setters_notify_on_change_witness :
  emitted (set_content "a,b" (model_of "a,b")) = []
  /\ emitted (set_content "c,d" (model_of "a,b")) = [StateChanged]
  /\ emitted (set_delimiter "," (model_of "a,b")) = []
  /\ emitted (set_delimiter ";" (model_of "a,b")) = [StateChanged].
Proof.
  destruct (setters_notify_on_change (model_of "a,b") "a,b")
    as (Hsame & _ & _ & _).
  destruct (setters_notify_on_change (model_of "a,b") "c,d")
    as (_ & Hnew & _ & _).
  destruct (setters_notify_on_change (model_of "a,b") ",")
    as (_ & _ & Hdsame & _).
  destruct (setters_notify_on_change (model_of "a,b") ";")
    as (_ & _ & _ & Hdnew).
  split; [|split; [|split]].
  - apply Hsame. reflexivity.
  - apply Hnew. discriminate.
  - apply Hdsame. reflexivity.
  - apply Hdnew. discriminate.
Defined.

(** ** Construction *)

(** C6, on the code: a model constructed with no options, or with options
    that have no [content], has [content] equal to [undefined], not to the
    empty string: the constructor body assigns [options.content] over the
    field initialiser. Its [delimiter] is the comma, and [parse()] on such a
    model throws in the d3 parser. *)
Theorem new_without_content_is_undefined :
  content (CSVModel_new no_options) = None
  /\ delimiter (CSVModel_new no_options) = ","
  /\ content (CSVModel_new (mkOptions None (Some ";"))) = None
  /\ result (parse D3Dsv.parse (CSVModel_new no_options))
     = Throw TypeError.
Proof. repeat split. Qed.

(** C7, amended: the delimiter that [get delimiter] returns, and that
    [parse()] hands to the parser, is the comma whenever the [delimiter]
    option is absent or the empty string at construction. The setter has no
    default: after assigning any string [v], the empty string included,
    [get delimiter] returns [v] and [parse()] hands [v] to the parser. *)
Theorem delimiter_default_at_construction
    (dsvFormat_parse : string -> option string -> Completion DSVParsedArray)
    (options : IOptions) (this : CSVModel) (v : string) :
  (opt_delimiter options = None \/ opt_delimiter options = Some "" ->
     delimiter (CSVModel_new options) = ","
     /\ parse dsvFormat_parse (CSVModel_new options)
        = parse (fun _ => dsvFormat_parse ",") (CSVModel_new options))
  /\ delimiter (after (set_delimiter v this)) = v
  /\ parse dsvFormat_parse (after (set_delimiter v this))
     = parse (fun _ => dsvFormat_parse v) (after (set_delimiter v this)).
Proof.
  split; [|split].
  - intros [Hd|Hd]; unfold CSVModel_new; rewrite Hd; split; reflexivity.
  - apply delimiter_after_set.
  - pose proof (delimiter_after_set this v) as Hv. unfold delimiter in Hv.
    unfold parse, bind, get_this, complete. rewrite Hv. reflexivity.
Qed.

Lemma delimiter_default_at_construction_witness :
  delimiter (CSVModel_new (mkOptions (Some "a,b") (Some ""))) = ","
  /\ parse D3Dsv.parse (CSVModel_new (mkOptions (Some "a,b") (Some "")))
     = parse (fun _ => D3Dsv.parse ",")
             (CSVModel_new (mkOptions (Some "a,b") (Some ""))).
Proof.
  apply (proj1 (delimiter_default_at_construction D3Dsv.parse
           (mkOptions (Some "a,b") (Some "")) (model_of "a,b") ";")).
  right. reflexivity.
Defined.

(** C7 as stated fails: assigning the empty string through the setter of a
    fresh model leaves [get delimiter] returning the empty string, not the
    comma, and [parse()] then splits no line at a comma. *)
Lemma set_delimiter_empty_is_kept :
  delimiter (after (set_delimiter "" (CSVModel_new no_options))) <> ","
  /\ delimiter (after (set_delimiter "" (CSVModel_new no_options))) = ""
  /\ result (parse D3Dsv.parse
               (after (set_delimiter "" (model_of ("a,b" +:+ nl +:+ "1,2")))))
     = Normal (mkParsed [ {[ "a,b" := Some "1,2" ]} ] (Some ["a,b"])).
Proof.
  split; [|split].
  - vm_compute. discriminate.
  - reflexivity.
  - vm_compute. reflexivity.
Qed.

(** ** Disposal *)


Lemma dispose_disposed (this : CSVModel) :
  isDisposed this = true -> dispose this = (Normal tt, this, []).
Proof.
  intros Hd. unfold dispose, bind, get_this. rewrite Hd. reflexivity.
Qed.

Lemma dispose_live (this : CSVModel) :
  isDisposed this = false ->
  dispose this
  = (Normal tt, mkCSVModel (_content this) (_delimiter this) true [] [], []).
Proof.
  intros Hd. unfold dispose, bind, get_this. rewrite Hd. reflexivity.
Qed.

Lemma times_dispose_disposed (n : nat) (this : CSVModel) :
  isDisposed this = true -> times n dispose this = (Normal tt, this, []).
Proof.
  intros Hd. induction n as [|n IH].
  - reflexivity.
  - change (times (S n) dispose this)
      with (bind dispose (fun _ => times n dispose) this).
    unfold bind. rewrite (dispose_disposed _ Hd), IH. reflexivity.
Qed.

(** C8: [dispose()] never throws. The first call, on a model that is not
    disposed, marks it disposed and leaves neither signal with a connected
    observer, so that no emission has a receiver; any number of further calls in a row return without a change
    to the model and without a signal. *)
Theorem dispose_idempotent (this : CSVModel) :
  result (dispose this) = Normal tt
  /\ (isDisposed this = false ->
        isDisposed (after (dispose this)) = true
        /\ stateChanged (after (dispose this)) = []
        /\ maxExceeded (after (dispose this)) = []
        /\ (forall e : Emission, receivers e (after (dispose this)) = [])
        /\ forall n : nat,
             times n dispose (after (dispose this))
             = (Normal tt, after (dispose this), []))
  /\ (isDisposed this = true -> dispose this = (Normal tt, this, [])).
Proof.
  split; [|split].
  - destruct (isDisposed this) eqn:Hd.
    + rewrite (dispose_disposed _ Hd). reflexivity.
    + rewrite (dispose_live _ Hd). reflexivity.
  - intros Hd. rewrite (dispose_live _ Hd). cbn [after fst snd isDisposed
      stateChanged maxExceeded]. repeat split.
    + intros []; reflexivity.
    + intros n. apply times_dispose_disposed. reflexivity.
  - apply dispose_disposed.
Qed.

Lemma dispose_idempotent_witness :
  let this :=
    connect_maxExceeded 2%nat (connect_stateChanged 1%nat (model_of "a,b")) in
  stateChanged this = [1%nat] /\ maxExceeded this = [2%nat]
  /\ isDisposed (after (dispose this)) = true
  /\ stateChanged (after (dispose this)) = []
  /\ maxExceeded (after (dispose this)) = []
  /\ times 2%nat dispose this = (Normal tt, after (dispose this), []).
Proof.
  intros this.
  destruct (dispose_idempotent this) as (_ & Hfirst & _).
  destruct Hfirst as (Hd & Hs & Hm & _ & Hn); [reflexivity|].
  split; [reflexivity|]. split; [reflexivity|].
  split; [exact Hd|]. split; [exact Hs|]. split; [exact Hm|].
  exact (Hn 1%nat).
Defined.

(** ** Rendering *)

Section Render.

Variable dsvFormat_parse : string -> option string -> Completion DSVParsedArray.
Variable this : CSVModel.

(** [render] adds a node to what [parse] does and nothing else. *)
Lemma render_parse :
  render dsvFormat_parse this
  = match parse dsvFormat_parse this with
    | (Normal output, this1, tr) =>
        (Normal
           (h_table [
              h_thead (map h_th (default [] (columns output)));
              h_tbody (map (fun row =>
                         h_tr (map (fun col => h_td (get_prop row col))
                                   (default [] (columns output))))
                       (rows output))]),
         this1, tr)
    | (Throw e, this1, tr) => (Throw e, this1, tr)
    end.
Proof.
  unfold render, bind, ret.
  destruct (parse dsvFormat_parse this) as [[[output|e] this1] tr].
  - rewrite app_nil_r. reflexivity.
  - reflexivity.
Qed.

Lemma render_result (output : DSVParsedArray) :
  result (parse dsvFormat_parse this) = Normal output ->
  result (render dsvFormat_parse this)
  = Normal
      (h_table [
         h_thead (map h_th (default [] (columns output)));
         h_tbody (map (fun row =>
                    h_tr (map (fun col => h_td (get_prop row col))
                              (default [] (columns output))))
                  (rows output))]).
Proof.
  rewrite render_parse.
  destruct (parse dsvFormat_parse this) as [[[output1|e] this1] tr];
    cbn [result fst]; intros Hr.
  - injection Hr as ->. reflexivity.
  - discriminate.
Qed.

End Render.


(** C5: when [parse()] returns, [render()] returns a [table] node of two
    children. The first, [thead], has one [th] cell per column, in column
    order, holding the column name. The second, [tbody], has one [tr] per
    returned row, in row order, each with one [td] cell per column, in
    column order, holding the row's value under that column name. On the
    text [a,b / 1,2 / 3,4] with the comma as delimiter the header is
    [a], [b] and the body rows are [1], [2] and [3], [4]. *)
Theorem render_table
    (dsvFormat_parse : string -> option string -> Completion DSVParsedArray)
    (this : CSVModel) (output : DSVParsedArray) :
  (result (parse dsvFormat_parse this) = Normal output ->
   exists header body : list VNode,
     result (render dsvFormat_parse this)
     = Normal (h_elem "table" [h_elem "thead" header; h_elem "tbody" body])
     /\ length header = length (default [] (columns output))
     /\ (forall (j : nat) (col : string),
           default [] (columns output) !! j = Some col ->
           header !! j = Some (h_cell "th" (Some col)))
     /\ length body = length (rows output)
     /\ (forall (i : nat) (row : DSVRowString),
           rows output !! i = Some row ->
           exists cells : list VNode,
             body !! i = Some (h_elem "tr" cells)
             /\ length cells = length (default [] (columns output))
             /\ forall (j : nat) (col : string),
                  default [] (columns output) !! j = Some col ->
                  cells !! j = Some (h_cell "td" (get_prop row col))))
  /\ delimiter (model_of example_csv) = ","
  /\ result (parse D3Dsv.parse (model_of example_csv))
     = Normal (mkParsed [ {[ "a" := Some "1"; "b" := Some "2" ]};
                          {[ "a" := Some "3"; "b" := Some "4" ]} ]
                        (Some ["a"; "b"]))
  /\ result (render D3Dsv.parse (model_of example_csv))
     = Normal
         (h_elem "table" [
            h_elem "thead" [h_cell "th" (Some "a"); h_cell "th" (Some "b")];
            h_elem "tbody" [
              h_elem "tr" [h_cell "td" (Some "1"); h_cell "td" (Some "2")];
              h_elem "tr" [h_cell "td" (Some "3"); h_cell "td" (Some "4")]]]).
Proof.
  split; [|split; [|split]].
  - intros Hr. eexists _, _. split; [apply (render_result _ _ _ Hr)|].
    split; [apply length_map|]. split.
    { intros j col Hj. rewrite list_lookup_fmap, Hj. reflexivity. }
    split; [apply length_map|].
    intros i row Hi. eexists. split.
    { rewrite list_lookup_fmap, Hi. reflexivity. }
    split; [apply length_map|].
    intros j col Hj. rewrite list_lookup_fmap, Hj. reflexivity.
  - reflexivity.
  - vm_compute. reflexivity.
  - vm_compute. reflexivity.
Qed.

Lemma render_table_witness :
  exists header body : list VNode,
    result (render D3Dsv.parse (model_of example_csv))
    = Normal (h_elem "table" [h_elem "thead" header; h_elem "tbody" body])
    /\ length header = 2%nat
    /\ length body = 2%nat.
Proof.
  destruct (render_table D3Dsv.parse (model_of example_csv)
              (mkParsed [ {[ "a" := Some "1"; "b" := Some "2" ]};
                          {[ "a" := Some "3"; "b" := Some "4" ]} ]
                        (Some ["a"; "b"]))) as [Hgen _].
  destruct Hgen as (header & body & Hr & Hh & _ & Hb & _).
  - vm_compute. reflexivity.
  - exists header, body. repeat split; assumption.
Defined.

Lemma map_const_replicate {A B : Type} (b : B) (l : list A) :
  map (fun _ => b) l = replicate (length l) b.
Proof.
  induction l as [|a l IH]; [reflexivity|].
  cbn [map length replicate]. rewrite IH. reflexivity.
Qed.

(** C9: when [parse()] returns an array with no columns (the [columns]
    property undefined, or empty), [render()] returns normally: a [table]
    whose [thead] has no cell and whose [tbody] has one [tr] without cells
    per returned row. On the empty text both are empty. *)
Theorem render_zero_columns
    (dsvFormat_parse : string -> option string -> Completion DSVParsedArray)
    (this : CSVModel) (output : DSVParsedArray) :
  (result (parse dsvFormat_parse this) = Normal output ->
   default [] (columns output) = [] ->
   result (render dsvFormat_parse this)
   = Normal (h_elem "table" [
       h_elem "thead" [];
       h_elem "tbody" (replicate (length (rows output)) (h_elem "tr" []))]))
  /\ result (render D3Dsv.parse (model_of ""))
     = Normal (h_elem "table" [h_elem "thead" []; h_elem "tbody" []]).
Proof.
  split.
  - intros Hr Hc. rewrite (render_result _ _ _ Hr), Hc. cbn [map].
    rewrite map_const_replicate. reflexivity.
  - reflexivity.
Qed.

Lemma render_zero_columns_witness :
  result (render D3Dsv.parse (model_of ""))
  = Normal (h_elem "table" [h_elem "thead" []; h_elem "tbody" []])
  /\ result (render (fun _ _ => Normal (mkParsed [∅; ∅] (Some [])))
               (model_of ""))
     = Normal (h_elem "table" [
         h_elem "thead" [];
         h_elem "tbody" [h_elem "tr" []; h_elem "tr" []]]).
Proof.
  split.
  - apply (proj1 (render_zero_columns D3Dsv.parse (model_of "")
                    (mkParsed [] None))).
    + reflexivity.
    + reflexivity.
  - apply (proj1 (render_zero_columns
                    (fun _ _ => Normal (mkParsed [∅; ∅] (Some [])))
                    (model_of "") (mkParsed [∅; ∅] (Some [])))).
    + reflexivity.
    + reflexivity.
Defined.

(** * Further properties *)

(** ** What [parse] and [render] return and emit *)

Section ParseFacts.

Variable dsvFormat_parse : string -> option string -> Completion DSVParsedArray.

(** The three ways a call of [parse] ends. *)
Lemma parse_cases (this : CSVModel) :
  (exists e,
      dsvFormat_parse (_delimiter this) (_content this) = Throw e
      /\ parse dsvFormat_parse this = (Throw e, this, []))
  \/ (exists output,
      dsvFormat_parse (_delimiter this) (_content this) = Normal output
      /\ Z.of_nat (length (rows output)) <= DISPLAY_LIMIT
      /\ parse dsvFormat_parse this = (Normal output, this, []))
  \/ (exists output,
      dsvFormat_parse (_delimiter this) (_content this) = Normal output
      /\ DISPLAY_LIMIT < Z.of_nat (length (rows output))
      /\ parse dsvFormat_parse this
         = (Normal (mkParsed (drop (Z.to_nat DISPLAY_LIMIT) (rows output))
                             (columns output)),
            this,
            [MaxExceeded
               {| available := Z.of_nat (length (rows output)) - DISPLAY_LIMIT;
                  maximum := DISPLAY_LIMIT |}])).
Proof.
  destruct (dsvFormat_parse (_delimiter this) (_content this))
    as [output|e] eqn:Hp.
  - destruct (Z.le_gt_cases (Z.of_nat (length (rows output))) DISPLAY_LIMIT)
      as [Hle|Hlt].
    + right. left. exists output. eauto using parse_small.
    + right. right. exists output. eauto using parse_large.
  - left. exists e. eauto using parse_throws.
Qed.

(** [parse] reads the two private fields and nothing else of the model. *)
Lemma parse_fields (this1 this2 : CSVModel) :
  _content this1 = _content this2 ->
  _delimiter this1 = _delimiter this2 ->
  result (parse dsvFormat_parse this1) = result (parse dsvFormat_parse this2)
  /\ emitted (parse dsvFormat_parse this1)
     = emitted (parse dsvFormat_parse this2).
Proof.
  intros Hc Hd. unfold parse, bind, get_this, complete. rewrite Hc, Hd.
  destruct (dsvFormat_parse (_delimiter this2) (_content this2)) as [output|e].
  - destruct (Z.of_nat (length (rows output)) >? DISPLAY_LIMIT); split;
      reflexivity.
  - split; reflexivity.
Qed.

Lemma render_fields (this1 this2 : CSVModel) :
  _content this1 = _content this2 ->
  _delimiter this1 = _delimiter this2 ->
  result (render dsvFormat_parse this1) = result (render dsvFormat_parse this2)
  /\ emitted (render dsvFormat_parse this1)
     = emitted (render dsvFormat_parse this2).
Proof.
  intros Hc Hd. destruct (parse_fields _ _ Hc Hd) as [Hr He].
  rewrite !render_parse.
  destruct (parse dsvFormat_parse this1) as [[[o1|e1] m1] tr1];
    destruct (parse dsvFormat_parse this2) as [[[o2|e2] m2] tr2];
    cbn in Hr, He; simplify_eq; split; reflexivity.
Qed.

End ParseFacts.

Lemma parse_numbered_1500 :
  parse D3Dsv.parse (model_of (numbered_csv 1500))
  = (Normal (mkParsed (numbered_rows 1000 500) (Some ["n"])),
     model_of (numbered_csv 1500),
     [MaxExceeded {| available := 500; maximum := 1000 |}]).
Proof.
  rewrite (parse_large D3Dsv.parse (model_of (numbered_csv 1500)) _
             d3_parse_numbered_1500).
  - by_evaluation.
  - vm_compute. reflexivity.
Qed.

(** X1: when [parse()] returns and a [maxExceeded] signal is among those it
    emitted, that signal is the only one emitted; its [available] is the
    number of rows [parse()] returned and is at least 1, its [maximum] is
    the display limit, and the two add up to the number of rows the parser
    produced. *)
Theorem overflow_notice_matches_returned_rows
    (dsvFormat_parse : string -> option string -> Completion DSVParsedArray)
    (this : CSVModel) (returned : DSVParsedArray) (notice : IOverflow) :
  result (parse dsvFormat_parse this) = Normal returned ->
  MaxExceeded notice ∈ emitted (parse dsvFormat_parse this) ->
  emitted (parse dsvFormat_parse this) = [MaxExceeded notice]
  /\ available notice = Z.of_nat (length (rows returned))
  /\ 1 <= available notice
  /\ maximum notice = DISPLAY_LIMIT
  /\ exists output,
       dsvFormat_parse (delimiter this) (content this) = Normal output
       /\ available notice + maximum notice = Z.of_nat (length (rows output)).
Proof.
  unfold delimiter, content.
  destruct (parse_cases dsvFormat_parse this)
    as [(e & _ & ->)|[(output & _ & _ & ->)|(output & Hp & Hlt & ->)]];
    cbn [result emitted fst snd]; intros Hr Hin.
  - discriminate.
  - apply elem_of_nil in Hin. contradiction.
  - apply list_elem_of_singleton in Hin. injection Hin as ->.
    injection Hr as <-. cbn [available maximum rows].
    rewrite length_drop_limit by exact Hlt.
    repeat split; try lia.
    exists output. split; [exact Hp|lia].
Qed.

Lemma overflow_notice_matches_returned_rows_witness :
  emitted (parse D3Dsv.parse (model_of (numbered_csv 1500)))
  = [MaxExceeded {| available := 500; maximum := 1000 |}]
  /\ 500 = Z.of_nat (length (numbered_rows 1000 500)).
Proof.
  destruct (overflow_notice_matches_returned_rows D3Dsv.parse
              (model_of (numbered_csv 1500))
              (mkParsed (numbered_rows 1000 500) (Some ["n"]))
              {| available := 500; maximum := 1000 |})
    as (He & Ha & _).
  - rewrite parse_numbered_1500. reflexivity.
  - rewrite parse_numbered_1500. apply list_elem_of_singleton. reflexivity.
  - split; [exact He|exact Ha].
Defined.

(** X2: whenever the parser returns, [parse()] returns too; it keeps the
    [columns] of the parser's array, and its rows are the parser's rows
    with a prefix removed, in the same order: the prefix is empty, or it is
    the first 1000 rows. *)
Theorem parse_returns_suffix_with_columns
    (dsvFormat_parse : string -> option string -> Completion DSVParsedArray)
    (this : CSVModel) (output : DSVParsedArray) :
  dsvFormat_parse (delimiter this) (content this) = Normal output ->
  exists (returned : DSVParsedArray) (removed : list DSVRowString),
    result (parse dsvFormat_parse this) = Normal returned
    /\ columns returned = columns output
    /\ rows output = removed ++ rows returned
    /\ (removed = [] \/ removed = take 1000 (rows output)
                        /\ length removed = 1000%nat).
Proof.
  unfold delimiter, content. intros Hp.
  destruct (parse_cases dsvFormat_parse this)
    as [(e & Hp1 & _)|[(out & Hp1 & _ & ->)|(out & Hp1 & Hlt & ->)]];
    rewrite Hp in Hp1; simplify_eq.
  - exists out, []. cbn. auto.
  - eexists _, (take 1000 (rows out)). cbn [result fst rows columns].
    split; [reflexivity|]. split; [reflexivity|]. split.
    + symmetry. apply take_drop.
    + right. split; [reflexivity|]. rewrite length_take.
      unfold DISPLAY_LIMIT in Hlt. lia.
Qed.

Lemma parse_returns_suffix_with_columns_witness :
  exists (returned : DSVParsedArray) (removed : list DSVRowString),
    result (parse D3Dsv.parse (model_of (numbered_csv 1500))) = Normal returned
    /\ columns returned = Some ["n"]
    /\ numbered_rows 0 1500 = removed ++ rows returned
    /\ (removed = [] \/ removed = take 1000 (numbered_rows 0 1500)
                        /\ length removed = 1000%nat).
Proof.
  apply (parse_returns_suffix_with_columns D3Dsv.parse
           (model_of (numbered_csv 1500))
           (mkParsed (numbered_rows 0 1500) (Some ["n"]))).
  exact d3_parse_numbered_1500.
Defined.



(** X4: [render()] has the effects of the one [parse()] call it makes and no
    other: the model is the same after it, the signals it emits are those
    [parse()] emits, so at most one, and never a [stateChanged]. *)
Theorem render_effects_are_parse_effects
    (dsvFormat_parse : string -> option string -> Completion DSVParsedArray)
    (this : CSVModel) :
  after (render dsvFormat_parse this) = this
  /\ emitted (render dsvFormat_parse this)
     = emitted (parse dsvFormat_parse this)
  /\ (length (emitted (render dsvFormat_parse this)) <= 1)%nat
  /\ count_StateChanged (emitted (render dsvFormat_parse this)) = 0%nat.
Proof.
  rewrite render_parse.
  destruct (parse_cases dsvFormat_parse this)
    as [(e1 & _ & ->)|[(out & _ & _ & ->)|(out & _ & _ & ->)]];
    cbn; repeat split; lia.
Qed.

(** X5: nothing is cached between calls. Two calls of [parse()] in a row
    end as one call does, with the same result and the model unchanged, and
    the signals of one call are emitted twice; the same holds of
    [render()]. *)
Theorem parse_and_render_repeat
    (dsvFormat_parse : string -> option string -> Completion DSVParsedArray)
    (this : CSVModel) :
  bind (parse dsvFormat_parse) (fun _ => parse dsvFormat_parse) this
  = (result (parse dsvFormat_parse this), this,
     emitted (parse dsvFormat_parse this)
     ++ emitted (parse dsvFormat_parse this))
  /\ bind (render dsvFormat_parse) (fun _ => render dsvFormat_parse) this
     = (result (render dsvFormat_parse this), this,
        emitted (render dsvFormat_parse this)
        ++ emitted (render dsvFormat_parse this)).
Proof.
  unfold bind. rewrite render_parse.
  destruct (parse_cases dsvFormat_parse this)
    as [(e1 & _ & Hq)|[(out & _ & _ & Hq)|(out & _ & _ & Hq)]];
    rewrite Hq; cbn [result emitted fst snd]; try rewrite render_parse;
    rewrite ?Hq; split; reflexivity.
Qed.

(** ** Disposal and the data of the model *)

Lemma dispose_fields (this : CSVModel) :
  _content (after (dispose this)) = _content this
  /\ _delimiter (after (dispose this)) = _delimiter this.
Proof.
  destruct (isDisposed this) eqn:Hd.
  - rewrite (dispose_disposed _ Hd). split; reflexivity.
  - rewrite (dispose_live _ Hd). split; reflexivity.
Qed.

(** X6: [dispose()] never throws away the data: [content] and [delimiter]
    are the same after it, and [parse()] and [render()] on the disposed
    model return and emit what they do on the model before disposal. *)
Theorem dispose_keeps_content_and_delimiter
    (dsvFormat_parse : string -> option string -> Completion DSVParsedArray)
    (this : CSVModel) :
  content (after (dispose this)) = content this
  /\ delimiter (after (dispose this)) = delimiter this
  /\ result (parse dsvFormat_parse (after (dispose this)))
     = result (parse dsvFormat_parse this)
  /\ emitted (parse dsvFormat_parse (after (dispose this)))
     = emitted (parse dsvFormat_parse this)
  /\ result (render dsvFormat_parse (after (dispose this)))
     = result (render dsvFormat_parse this)
  /\ emitted (render dsvFormat_parse (after (dispose this)))
     = emitted (render dsvFormat_parse this).
Proof.
  destruct (dispose_fields this) as [Hc Hd]. unfold content, delimiter.
  destruct (parse_fields dsvFormat_parse _ _ Hc Hd) as [Hpr Hpe].
  destruct (render_fields dsvFormat_parse _ _ Hc Hd) as [Hrr Hre].
  repeat split; assumption.
Qed.

(** ** Assignments *)

(** X7: an assignment is idempotent: assigning the same string twice in a
    row to [content] ends exactly as assigning it once, in result, in model
    and in the signals emitted, so the second assignment never notifies;
    after it [get content] returns the string. The same holds of
    [delimiter]. *)
Theorem assignment_is_idempotent (this : CSVModel) (v : string) :
  bind (set_content v) (fun _ => set_content v) this = set_content v this
  /\ content (after (set_content v this)) = Some v
  /\ bind (set_delimiter v) (fun _ => set_delimiter v) this
     = set_delimiter v this
  /\ delimiter (after (set_delimiter v this)) = v.
Proof.
  unfold bind, content, delimiter. split; [|split; [|split]].
  - destruct (decide (_content this = Some v)) as [Heq|Hne].
    + rewrite (set_content_same _ _ Heq), (set_content_same _ _ Heq).
      reflexivity.
    + rewrite (set_content_new _ _ Hne).
      rewrite (set_content_same (set__content (Some v) this) v eq_refl).
      reflexivity.
  - destruct (decide (_content this = Some v)) as [Heq|Hne].
    + rewrite (set_content_same _ _ Heq). exact Heq.
    + rewrite (set_content_new _ _ Hne). reflexivity.
  - destruct (decide (_delimiter this = v)) as [Heq|Hne].
    + rewrite (set_delimiter_same _ _ Heq), (set_delimiter_same _ _ Heq).
      reflexivity.
    + rewrite (set_delimiter_new _ _ Hne).
      rewrite (set_delimiter_same (set__delimiter v this) v eq_refl).
      reflexivity.
  - apply delimiter_after_set.
Qed.

(** X8: the two setters do not interfere: assigning [content] and then
    [delimiter] ends exactly as assigning [delimiter] and then [content],
    with the same model and the same signals. *)
Theorem setters_commute (this : CSVModel) (c d : string) :
  bind (set_content c) (fun _ => set_delimiter d) this
  = bind (set_delimiter d) (fun _ => set_content c) this.
Proof.
  unfold bind.
  destruct (decide (_content this = Some c)) as [Hc|Hc];
    destruct (decide (_delimiter this = d)) as [Hd|Hd].
  - rewrite (set_content_same _ _ Hc), (set_delimiter_same _ _ Hd),
      (set_content_same _ _ Hc). reflexivity.
  - rewrite (set_content_same _ _ Hc), (set_delimiter_new _ _ Hd),
      (set_content_same (set__delimiter d this) c Hc). reflexivity.
  - rewrite (set_content_new _ _ Hc), (set_delimiter_same _ _ Hd),
      (set_delimiter_same (set__content (Some c) this) d Hd),
      (set_content_new _ _ Hc). reflexivity.
  - rewrite (set_content_new _ _ Hc), (set_delimiter_new _ _ Hd),
      (set_delimiter_new (set__content (Some c) this) d Hd),
      (set_content_new (set__delimiter d this) c Hc). reflexivity.
Qed.

(** ** Construction *)

(** X9: whatever the options, a new model has a delimiter that is not the
    empty string, the content the options give (undefined when they give
    none), is not disposed and has no observer; a delimiter option that is
    not the empty string is the delimiter of the model. *)
Theorem new_model_state (options : IOptions) :
  delimiter (CSVModel_new options) <> ""
  /\ content (CSVModel_new options) = opt_content options
  /\ isDisposed (CSVModel_new options) = false
  /\ stateChanged (CSVModel_new options) = []
  /\ maxExceeded (CSVModel_new options) = []
  /\ forall d : string,
       opt_delimiter options = Some d -> d <> "" ->
       delimiter (CSVModel_new options) = d.
Proof.
  unfold CSVModel_new, delimiter, content. cbn.
  split; [|repeat split].
  - unfold or_default. destruct (opt_delimiter options) as [d|].
    + destruct (decide (d = "")); [discriminate|assumption].
    + discriminate.
  - intros d -> Hd. unfold or_default.
    destruct (decide (d = "")); [contradiction|reflexivity].
Qed.

Lemma new_model_state_witness :
  delimiter (CSVModel_new (mkOptions (Some "a;b") (Some ";"))) = ";".
Proof.
  destruct (new_model_state (mkOptions (Some "a;b") (Some ";")))
    as (_ & _ & _ & _ & _ & Hd).
  apply Hd.
  - reflexivity.
  - discriminate.
Defined.

(** ** Sequences of calls *)

Section Host.

Variable dsvFormat_parse : string -> option string -> Completion DSVParsedArray.

Lemma calls_cons (c : Call) (cs : list Call) (this : CSVModel) :
  calls dsvFormat_parse (c :: cs) this
  = match call dsvFormat_parse c this with
    | (Normal _, this1, tr1) =>
        match calls dsvFormat_parse cs this1 with
        | (r, this2, tr2) => (r, this2, tr1 ++ tr2)
        end
    | (Throw e, this1, tr1) => (Throw e, this1, tr1)
    end.
Proof. reflexivity. Qed.

(** The disposal flag and the connections of a model. *)
Lemma call_connections (c : Call) (this : CSVModel) :
  (isDisposed (after (call dsvFormat_parse c this)) = isDisposed this
   /\ stateChanged (after (call dsvFormat_parse c this)) = stateChanged this
   /\ maxExceeded (after (call dsvFormat_parse c this)) = maxExceeded this)
  \/ (c = Dispose
      /\ isDisposed this = false
      /\ isDisposed (after (call dsvFormat_parse c this)) = true
      /\ stateChanged (after (call dsvFormat_parse c this)) = []
      /\ maxExceeded (after (call dsvFormat_parse c this)) = []).
Proof.
  destruct c as [v|v| | |]; cbn [call].
  - left. destruct (decide (_content this = Some v)) as [Heq|Hne].
    + rewrite (set_content_same _ _ Heq). auto.
    + rewrite (set_content_new _ _ Hne). auto.
  - left. destruct (decide (_delimiter this = v)) as [Heq|Hne].
    + rewrite (set_delimiter_same _ _ Heq). auto.
    + rewrite (set_delimiter_new _ _ Hne). auto.
  - destruct (isDisposed this) eqn:Hd.
    + left. rewrite (dispose_disposed _ Hd). auto.
    + right. rewrite (dispose_live _ Hd). auto.
  - left. unfold bind.
    destruct (parse_cases dsvFormat_parse this)
      as [(e1 & _ & ->)|[(out & _ & _ & ->)|(out & _ & _ & ->)]]; auto.
  - left. unfold bind. rewrite render_parse.
    destruct (parse_cases dsvFormat_parse this)
      as [(e1 & _ & ->)|[(out & _ & _ & ->)|(out & _ & _ & ->)]]; auto.
Qed.

Lemma call_dispose_disposes (this : CSVModel) :
  result (call dsvFormat_parse Dispose this) = Normal tt
  /\ isDisposed (after (call dsvFormat_parse Dispose this)) = true.
Proof.
  cbn [call]. destruct (isDisposed this) eqn:Hd.
  - rewrite (dispose_disposed _ Hd). auto.
  - rewrite (dispose_live _ Hd). auto.
Qed.

Lemma calls_connections (cs : list Call) (this : CSVModel) :
  (isDisposed (after (calls dsvFormat_parse cs this)) = isDisposed this
   /\ stateChanged (after (calls dsvFormat_parse cs this)) = stateChanged this
   /\ maxExceeded (after (calls dsvFormat_parse cs this)) = maxExceeded this)
  \/ (isDisposed (after (calls dsvFormat_parse cs this)) = true
      /\ stateChanged (after (calls dsvFormat_parse cs this)) = []
      /\ maxExceeded (after (calls dsvFormat_parse cs this)) = []).
Proof.
  revert this. induction cs as [|c cs IH]; intros this.
  - left. auto.
  - rewrite calls_cons.
    pose proof (call_connections c this) as Hc.
    destruct (call dsvFormat_parse c this) as [[[[]|e] this1] tr1];
      cbn [after fst snd] in Hc |- *.
    + specialize (IH this1).
      destruct (calls dsvFormat_parse cs this1) as [[r this2] tr2].
      cbn [after fst snd] in IH |- *.
      destruct IH as [(H1 & H2 & H3)|IH]; [|right; exact IH].
      rewrite H1, H2, H3.
      destruct Hc as [Hc|(_ & _ & Hc)]; [left|right]; exact Hc.
    + destruct Hc as [Hc|(_ & _ & Hc)]; [left|right]; exact Hc.
Qed.

Lemma calls_disposed (cs : list Call) (this : CSVModel) :
  result (calls dsvFormat_parse cs this) = Normal tt ->
  Dispose ∈ cs ->
  isDisposed (after (calls dsvFormat_parse cs this)) = true
  /\ (isDisposed this = false ->
      stateChanged (after (calls dsvFormat_parse cs this)) = []
      /\ maxExceeded (after (calls dsvFormat_parse cs this)) = []).
Proof.
  revert this. induction cs as [|c cs IH]; intros this Hr Hin.
  - apply elem_of_nil in Hin. contradiction.
  - rewrite calls_cons in Hr |- *.
    pose proof (call_connections c this) as Hc.
    destruct (call dsvFormat_parse c this) as [[[[]|e] this1] tr1] eqn:Hcall;
      cbn [after fst snd] in Hc; [|discriminate].
    pose proof (calls_connections cs this1) as Hcs.
    specialize (IH this1).
    destruct (calls dsvFormat_parse cs this1) as [[r this2] tr2].
    cbn [after result fst snd] in *.
    destruct Hc as [(H1 & H2 & H3)|(-> & Hlive & Hd & Hs & Hm)].
    + apply elem_of_cons in Hin. destruct Hin as [<-|Hin].
      * (* the model was disposed already *)
        pose proof (call_dispose_disposes this) as [_ Hd].
        rewrite Hcall in Hd. cbn [after fst snd] in Hd.
        split.
        -- destruct Hcs as [(Hd2 & _)|(Hd2 & _)]; congruence.
        -- intros Hlive. congruence.
      * destruct (IH Hr Hin) as [Hd2 Hobs]. split; [exact Hd2|].
        intros Hlive. apply Hobs. congruence.
    + split.
      * destruct Hcs as [(Hd2 & _)|(Hd2 & _)]; congruence.
      * intros _. destruct Hcs as [(_ & Hs2 & Hm2)|(_ & Hs2 & Hm2)];
          split; congruence.
Qed.

(** One call emits at most one signal: a [stateChanged] only from a setter,
    a [maxExceeded] only from [parse()] or [render()]. *)
Lemma call_emits (c : Call) (this : CSVModel) :
  (count_StateChanged (emitted (call dsvFormat_parse c this))
   <= if is_setter c then 1 else 0)%nat
  /\ (count_MaxExceeded (emitted (call dsvFormat_parse c this))
      <= if is_parsing c then 1 else 0)%nat.
Proof.
  destruct c as [v|v| | |]; cbn [call is_setter is_parsing].
  - destruct (decide (_content this = Some v)) as [Heq|Hne].
    + rewrite (set_content_same _ _ Heq). cbn. lia.
    + rewrite (set_content_new _ _ Hne). cbn. lia.
  - destruct (decide (_delimiter this = v)) as [Heq|Hne].
    + rewrite (set_delimiter_same _ _ Heq). cbn. lia.
    + rewrite (set_delimiter_new _ _ Hne). cbn. lia.
  - destruct (isDisposed this) eqn:Hd.
    + rewrite (dispose_disposed _ Hd). cbn. lia.
    + rewrite (dispose_live _ Hd). cbn. lia.
  - unfold bind.
    destruct (parse_cases dsvFormat_parse this)
      as [(e1 & _ & ->)|[(out & _ & _ & ->)|(out & _ & _ & ->)]]; cbn; lia.
  - unfold bind. rewrite render_parse.
    destruct (parse_cases dsvFormat_parse this)
      as [(e1 & _ & ->)|[(out & _ & _ & ->)|(out & _ & _ & ->)]]; cbn; lia.
Qed.

End Host.

Lemma count_StateChanged_app (tr1 tr2 : list Emission) :
  count_StateChanged (tr1 ++ tr2)
  = (count_StateChanged tr1 + count_StateChanged tr2)%nat.
Proof.
  unfold count_StateChanged. rewrite List.filter_app, length_app. reflexivity.
Qed.

Lemma count_MaxExceeded_app (tr1 tr2 : list Emission) :
  count_MaxExceeded (tr1 ++ tr2)
  = (count_MaxExceeded tr1 + count_MaxExceeded tr2)%nat.
Proof.
  unfold count_MaxExceeded. rewrite List.filter_app, length_app. reflexivity.
Qed.

(** X10: disposal is permanent and no method adds an observer. After any
    sequence of assignments, [dispose()], [parse()] and [render()] calls, a
    model that was disposed is disposed; the disposal flag and the
    connections of both signals are as before the sequence, or else the
    model is disposed and has no connection. When the sequence ran to its
    end and had a [dispose()] in it, the model is disposed, and has no
    connection if it was not disposed at the start. *)
Theorem disposal_is_permanent
    (dsvFormat_parse : string -> option string -> Completion DSVParsedArray)
    (cs : list Call) (this : CSVModel) :
  (isDisposed this = true ->
   isDisposed (after (calls dsvFormat_parse cs this)) = true)
  /\ ((isDisposed (after (calls dsvFormat_parse cs this)) = isDisposed this
       /\ stateChanged (after (calls dsvFormat_parse cs this))
          = stateChanged this
       /\ maxExceeded (after (calls dsvFormat_parse cs this))
          = maxExceeded this)
      \/ (isDisposed (after (calls dsvFormat_parse cs this)) = true
          /\ stateChanged (after (calls dsvFormat_parse cs this)) = []
          /\ maxExceeded (after (calls dsvFormat_parse cs this)) = []))
  /\ (result (calls dsvFormat_parse cs this) = Normal tt ->
      Dispose ∈ cs ->
      isDisposed (after (calls dsvFormat_parse cs this)) = true
      /\ (isDisposed this = false ->
          stateChanged (after (calls dsvFormat_parse cs this)) = []
          /\ maxExceeded (after (calls dsvFormat_parse cs this)) = [])).
Proof.
  split; [|split].
  - intros Hd.
    destruct (calls_connections dsvFormat_parse cs this)
      as [(H1 & _)|(H1 & _)]; congruence.
  - apply calls_connections.
  - apply calls_disposed.
Qed.

Lemma disposal_is_permanent_witness :
  let this :=
    connect_maxExceeded 2%nat (connect_stateChanged 1%nat (model_of "a,b")) in
  let cs := [SetContent example_csv; Render; Dispose; SetDelimiter ";"; Parse] in
  isDisposed (after (calls D3Dsv.parse cs this)) = true
  /\ stateChanged (after (calls D3Dsv.parse cs this)) = []
  /\ maxExceeded (after (calls D3Dsv.parse cs this)) = []
  /\ isDisposed
       (after (calls D3Dsv.parse [SetContent "c"; Parse]
                 (after (calls D3Dsv.parse cs this)))) = true.
Proof.
  intros this cs.
  destruct (disposal_is_permanent D3Dsv.parse cs this) as (_ & _ & Hrun).
  destruct Hrun as (Hd & Hobs).
  - vm_compute. reflexivity.
  - unfold cs. apply elem_of_cons. right. apply elem_of_cons. right.
    apply elem_of_cons. left. reflexivity.
  - destruct Hobs as (Hs & Hm); [reflexivity|].
    split; [exact Hd|]. split; [exact Hs|]. split; [exact Hm|].
    apply (proj1 (disposal_is_permanent D3Dsv.parse [SetContent "c"; Parse]
                    (after (calls D3Dsv.parse cs this)))).
    exact Hd.
Defined.

(** X11: a sequence of calls emits at most one [stateChanged] per
    assignment in it and at most one [maxExceeded] per [parse()] or
    [render()] in it; [dispose()] emits nothing. *)
Theorem notifications_are_bounded
    (dsvFormat_parse : string -> option string -> Completion DSVParsedArray)
    (cs : list Call) (this : CSVModel) :
  (count_StateChanged (emitted (calls dsvFormat_parse cs this))
   <= length (List.filter is_setter cs))%nat
  /\ (count_MaxExceeded (emitted (calls dsvFormat_parse cs this))
      <= length (List.filter is_parsing cs))%nat.
Proof.
  revert this. induction cs as [|c cs IH]; intros this.
  - cbn. lia.
  - rewrite calls_cons.
    pose proof (call_emits dsvFormat_parse c this) as [Hs Hm].
    destruct (call dsvFormat_parse c this) as [[[[]|e] this1] tr1];
      cbn [emitted snd] in Hs, Hm.
    + specialize (IH this1) as [IHs IHm].
      destruct (calls dsvFormat_parse cs this1) as [[r this2] tr2].
      cbn [emitted snd] in *.
      rewrite count_StateChanged_app, count_MaxExceeded_app.
      cbn [List.filter].
      destruct (is_setter c); destruct (is_parsing c); cbn [length]; lia.
    + cbn [emitted snd List.filter].
      destruct (is_setter c); destruct (is_parsing c); cbn [length]; lia.
Qed.
